(** * AgentPro: the ReAct loop of [agentpro/agent.py]

    A shallow embedding of the [AgentPro] class: the tool registry
    ([format_tools]), the action parser ([parse_action_string]), the tool
    dispatcher ([tool_call]) and the conversation loop ([__call__]); and
    of the [run] methods of the two tools of [agentpro/tools/ares_tool.py].

    Modelling conventions.
    - A Python [str] is a [string]; every character is read as the code
      point of the same number (0..255), and the builtins of [str] follow
      CPython on that range.
    - A call that may raise returns a [result]; an exception is kept as the
      text [str(e)] gives, which is all the program ever reads of it.
    - The language-model client, the tools' [run], [json.loads] and
      [str.format] are collaborators of the program: they are parameters.
    - [print] calls write to the console only and are left out. *)

From Stdlib Require Import List Arith Bool Lia Ascii String.
From Equations Require Import Equations.
Import ListNotations.

Local Open Scope list_scope.
Local Open Scope string_scope.

(** ** Python's [str] builtins *)

Module PyStr.

(** The line feed and the two quote characters, by code point. *)
Definition LF : ascii := ascii_of_nat 10.
Definition nl : string := String LF "".
Definition squote : ascii := ascii_of_nat 39.
Definition dquote : ascii := ascii_of_nat 34.
Definition backslash : ascii := ascii_of_nat 92.

Definition between (lo hi n : nat) : bool := Nat.leb lo n && Nat.leb n hi.

(** [str.isspace] on one character: TAB..CR, FS..US, space, NEL, NBSP. *)
Definition isspace (c : ascii) : bool :=
  let n := nat_of_ascii c in
  between 9 13 n || between 28 32 n || Nat.eqb n 133 || Nat.eqb n 160.

(** [str.lower] on one character: A..Z and the upper-case letters of
    Latin-1 (0xC0..0xDE without the multiplication sign 0xD7). *)
Definition lower_char (c : ascii) : ascii :=
  let n := nat_of_ascii c in
  if between 65 90 n || (between 192 222 n && negb (Nat.eqb n 215))
  then ascii_of_nat (n + 32) else c.

Fixpoint lower (s : string) : string :=
  match s with
  | "" => ""
  | String c s' => String (lower_char c) (lower s')
  end.

Fixpoint lstrip (s : string) : string :=
  match s with
  | "" => ""
  | String c s' => if isspace c then lstrip s' else s
  end.

Fixpoint rstrip (s : string) : string :=
  match s with
  | "" => ""
  | String c s' =>
      match rstrip s' with
      | "" => if isspace c then "" else String c ""
      | r => String c r
      end
  end.

(** [s.strip()] *)
Definition strip (s : string) : string := rstrip (lstrip s).

(** [s.startswith(p)] *)
Definition startswith (p s : string) : bool := prefix p s.

(** [sub in s] *)
Fixpoint contains (sub s : string) : bool :=
  prefix sub s ||
  match s with
  | "" => false
  | String _ s' => contains sub s'
  end.

(** [s.find(sub)], [None] standing for -1. *)
Fixpoint find (sub s : string) : option nat :=
  if prefix sub s then Some 0
  else match s with
       | "" => None
       | String _ s' => option_map S (find sub s')
       end.

(** [s[:n]] and [s[n:]] *)
Fixpoint take (n : nat) (s : string) : string :=
  match n, s with
  | S n', String c s' => String c (take n' s')
  | _, _ => ""
  end.

Fixpoint drop (n : nat) (s : string) : string :=
  match n, s with
  | S n', String _ s' => drop n' s'
  | _, _ => s
  end.

Definition inspect {A : Type} (a : A) : { b : A | a = b } :=
  exist _ a eq_refl.

(** [s.split(sep)] for a separator that is not empty, as CPython does it:
    find the next occurrence, cut, and go on behind it.  (With an empty
    separator Python raises [ValueError]; the program never does that, and
    the model gives back [[s]].) *)
#[local] Unset Equations With Funext.

Equations? split (sep s : string) : list string by wf (length s) lt :=
  split "" s := [s];
  split (String a sep') s with inspect (find (String a sep') s) => {
    | exist _ None _ := [s];
    | exist _ (Some i) _ :=
        take i s :: split (String a sep') (drop (i + S (length sep')) s) }.
Proof.
  assert (P : forall p t, prefix p t = true -> length p <= length t).
  { intros p; induction p as [|c p IH]; intros [|d t]; simpl; intros H;
      try discriminate; try lia.
    destruct (ascii_dec c d); [|discriminate].
    apply IH in H; lia. }
  assert (B : forall sub t j, find sub t = Some j -> j + length sub <= length t).
  { intros sub t; induction t as [|c t IH]; intros j.
    - destruct sub; simpl; intros H; inversion H; lia.
    - cbn [find]. destruct (prefix sub (String c t)) eqn:P0.
      + intros H; inversion H; subst. apply P in P0. lia.
      + destruct (find sub t) as [k|]; simpl; [|discriminate].
        intros H; inversion H; subst. specialize (IH k eq_refl). lia. }
  assert (D : forall n t, length (drop n t) = length t - n).
  { intros n; induction n as [|n IH]; intros [|c t]; simpl; auto. }
  apply B in e. rewrite D. simpl in e. lia.
Qed.

(** [sep.join(l)] *)
Definition join (sep : string) (l : list string) : string := concat sep l.

(** [s.replace(old, new)] for [old] not empty: the pieces between the
    occurrences of [old], found from the left, glued with [new]. *)
Definition replace (old new s : string) : string := join new (split old s).

(** *** [repr] of a [str] and of a [list] of [str] *)

Definition hex_digit (n : nat) : ascii :=
  if Nat.ltb n 10 then ascii_of_nat (48 + n) else ascii_of_nat (87 + n).

Definition isprintable (c : ascii) : bool :=
  let n := nat_of_ascii c in
  between 32 126 n || (between 161 255 n && negb (Nat.eqb n 173)).

Definition repr_char (quote c : ascii) : string :=
  let n := nat_of_ascii c in
  if Ascii.eqb c quote || Ascii.eqb c backslash then String backslash (String c "")
  else if Nat.eqb n 9 then String backslash "t"
  else if Nat.eqb n 10 then String backslash "n"
  else if Nat.eqb n 13 then String backslash "r"
  else if isprintable c then String c ""
  else String backslash
         (String "x" (String (hex_digit (n / 16)) (String (hex_digit (n mod 16)) ""))).

Fixpoint has_char (q : ascii) (s : string) : bool :=
  match s with
  | "" => false
  | String c s' => Ascii.eqb c q || has_char q s'
  end.

Fixpoint repr_body (quote : ascii) (s : string) : string :=
  match s with
  | "" => ""
  | String c s' => repr_char quote c ++ repr_body quote s'
  end.

Definition repr (s : string) : string :=
  let quote := if has_char squote s && negb (has_char dquote s)
               then dquote else squote in
  String quote (repr_body quote s ++ String quote "").

Definition repr_list (l : list string) : string :=
  "[" ++ join ", " (map repr l) ++ "]".

End PyStr.

Import PyStr.

(** ** Results, messages, dictionaries *)

(** An exception, kept as the text [str(e)] gives. *)
Record Exception : Type := { str_of : string }.

Inductive result (A : Type) : Type :=
| Ok (a : A)
| Raise (e : Exception).
Arguments Ok {A} a.
Arguments Raise {A} e.

Inductive Role : Type := system | user | assistant.

(** One entry of the history, [{"role": ..., "content": ...}]. *)
Record Message : Type := { role : Role; content : string }.

(** Truth value of a [str]: any string but the empty one. *)
Definition truthy (s : string) : bool := negb (s =? "").

(** A Python [dict] with [str] keys: the entries in insertion order; writing
    to a key that is present keeps its place and replaces its value. *)
Module Dict.

Definition t (V : Type) : Type := list (string * V).

Fixpoint get {V : Type} (d : t V) (k : string) : option V :=
  match d with
  | [] => None
  | (k', v) :: d' => if k' =? k then Some v else get d' k
  end.

Fixpoint set {V : Type} (d : t V) (k : string) (v : V) : t V :=
  match d with
  | [] => [(k, v)]
  | (k', v') :: d' =>
      if k' =? k then (k', v) :: d' else (k', v') :: set d' k v
  end.

(** [list(d.keys())] *)
Definition keys {V : Type} (d : t V) : list string := map fst d.

(** [dict(pairs)] *)
Definition of_pairs {V : Type} (pairs : list (string * V)) : t V :=
  fold_left (fun d kv => set d (fst kv) (snd kv)) pairs [].

End Dict.

(** ** The agent *)

Section Agent.

(** What [json.loads] returns, and [json.loads] itself, taken by its
    contract: the decoded value, or [json.JSONDecodeError], for which [None]
    stands.  Its argument is always a [str] here, so the [TypeError] of the
    handler cannot occur. *)
Context {JSON : Type}.
Variable json_loads : string -> option JSON.

(** The second component of what the parser returns: the decoded value,
    or the joined text when decoding failed. *)
Inductive ActionInput : Type :=
| Decoded (v : JSON)
| Text (s : string).

(** A tool, as the agent uses it: [tool.name], [tool.get_tool_description()]
    and [tool.run(action_input)]. *)
Record Tool : Type := {
  name : string;
  get_tool_description : string;
  run : ActionInput -> result string
}.

(** The fields of an [AgentPro] instance.  [client] stands for
    [client.chat.completions.create(model=.., messages=.., max_tokens=..)
     .choices[0].message.content]: given the history, the text of the
    completion, or the exception raised on the way.  The history grows with
    every call, so a function of the history also covers a client that
    answers by the number of calls made so far. *)
Record AgentPro : Type := {
  client : list Message -> result string;
  tools : Dict.t Tool;
  react_prompt : string;
  messages : list Message
}.

(** [self.messages.append({"role": r, "content": c})] *)
Definition append_message (self : AgentPro) (r : Role) (c : string) : AgentPro :=
  {| client := client self;
     tools := tools self;
     react_prompt := react_prompt self;
     messages := (messages self ++ [{| role := r; content := c |}])%list |}.

(** [format_tools]: [dict(zip(tool_names, tools))] with
    [tool_names = list(map(lambda tool: tool.name, tools))]. *)
Definition format_tools (tools : list Tool) : Dict.t Tool :=
  let tool_names := map name tools in
  Dict.of_pairs (combine tool_names tools).

(** [__init__].  [react_prompt tools_text tool_names_text] stands for
    [react_prompt.format(tools=tools_text, tool_names=tool_names_text)]. *)
Definition init (llm : list Message -> result string) (tools : list Tool)
    (system_prompt : option string)
    (react_prompt : string -> string -> string) : AgentPro :=
  let prompt :=
    react_prompt (join (nl ++ nl) (map get_tool_description tools))
                 (join ", " (map name tools)) in
  let preamble :=
    match system_prompt with
    | Some p => if truthy p then [{| role := system; content := p |}] else []
    | None => []
    end in
  {| client := llm;
     tools := format_tools tools;
     react_prompt := prompt;
     messages := (preamble ++ [{| role := system; content := prompt |}])%list |}.

(** *** [parse_action_string] *)

(** The three variables of the scan: [action], [action_input] (the list
    of collected lines) and [is_action_input]. *)
Record ParserState : Type := {
  action : option string;
  action_input : list string;
  is_action_input : bool
}.

Definition parser_start : ParserState :=
  {| action := None; action_input := []; is_action_input := false |}.

(** The body of [for line in lines]. *)
Definition parse_line (st : ParserState) (line : string) : ParserState :=
  if startswith "Action:" line then
    {| action := Some (strip (replace "Action:" "" line));
       action_input := action_input st;
       is_action_input := is_action_input st |}
  else if startswith "Action Input:" line then
    let input_text := strip (replace "Action Input:" "" line) in
    {| action := action st;
       action_input :=
         if truthy input_text then (action_input st ++ [input_text])%list
         else action_input st;
       is_action_input := true |}
  else if startswith "Observation:" line then
    {| action := action st;
       action_input := action_input st;
       is_action_input := false |}
  else if is_action_input st && truthy (strip line) then
    {| action := action st;
       action_input := (action_input st ++ [strip line])%list;
       is_action_input := is_action_input st |}
  else st.

Definition scan_lines (lines : list string) : ParserState :=
  fold_left parse_line lines parser_start.

(** The [try: json.loads ... except: pass] at the end of the parser. *)
Definition decode_input (joined : string) : ActionInput :=
  match json_loads joined with
  | Some v => Decoded v
  | None => Text joined
  end.

Definition parse_action_string (text : string) : option string * ActionInput :=
  let st := scan_lines (split nl text) in
  (action st, decode_input (join nl (action_input st))).

(** *** [tool_call] *)

(** [f"{action}"] for an [action] that is a [str] or [None]. *)
Definition format_action (a : option string) : string :=
  match a with
  | Some s => s
  | None => "None"
  end.

Definition tool_not_found (self : AgentPro) (a : option string) : string :=
  "Observation: Tool '" ++ format_action a ++ "' not found. Available tools: "
    ++ repr_list (Dict.keys (tools self)).

(** The body of the [try] block.  The membership test and the subscript
    [self.tools[...]] that follows it are one [Dict.get]. *)
Definition tool_call_body (self : AgentPro) (a : option string)
    (input : ActionInput) : result string :=
  match a with
  | Some name =>
      if truthy name then
        match Dict.get (tools self) (lower (strip name)) with
        | Some tool =>
            match run tool input with
            | Ok tool_observation => Ok ("Observation: " ++ tool_observation)
            | Raise e => Raise e
            end
        | None => Ok (tool_not_found self a)
        end
      else Ok (tool_not_found self a)
  | None => Ok (tool_not_found self a)
  end.

Definition tool_call (self : AgentPro) (response : string) : string :=
  let (a, input) := parse_action_string response in
  match tool_call_body self a input with
  | Ok observation => observation
  | Raise e =>
      "Observation: There was an error executing the tool" ++ nl
        ++ "Error: " ++ str_of e
  end.

(** *** [__call__] *)

Definition max_steps : nat := 10.

Definition exhausted : string :=
  "The agent was unable to provide a conclusive answer after multiple steps.".

(** A record of what a run did, kept beside the state of the program:
    every call of the model with its outcome, and every call of
    [tool_call] with its argument and result. *)
Inductive Event : Type :=
| ModelCall (outcome : result string)
| ToolCall (response observation : string).

Record Run : Type := {
  answer : string;
  final : AgentPro;
  trace : list Event
}.

Definition after (events : list Event) (r : Run) : Run :=
  {| answer := answer r; final := final r; trace := (events ++ trace r)%list |}.

(** The [while step_count < max_steps] loop, on the number of steps that
    remain, [max_steps - step_count]. *)
Fixpoint loop (remaining : nat) (self : AgentPro) : Run :=
  match remaining with
  | 0 => {| answer := exhausted; final := self; trace := [] |}
  | S remaining' =>
      match client self (messages self) with
      | Raise e =>
          {| answer := "Error: Could not get a response from the model - "
                         ++ str_of e;
             final := self;
             trace := [ModelCall (Raise e)] |}
      | Ok text =>
          let response := strip text in
          let self := append_message self assistant response in
          if contains "Final Answer" response then
            {| answer := strip (last (split "Final Answer:" response) "");
               final := self;
               trace := [ModelCall (Ok text)] |}
          else if contains "Action" response && contains "Action Input" response then
            let observation := tool_call self response in
            let self := append_message self assistant observation in
            after [ModelCall (Ok text); ToolCall response observation]
                  (loop remaining' self)
          else
            after [ModelCall (Ok text)] (loop remaining' self)
      end
  end.

Definition call (self : AgentPro) (prompt : string) : Run :=
  loop max_steps (append_message self user prompt).

(** The agent after a sequence of prompts, one [__call__] each. *)
Definition session (self : AgentPro) (prompts : list string) : AgentPro :=
  fold_left (fun a prompt => final (call a prompt)) prompts self.



Definition tool_calls (events : list Event) : nat :=
  List.length (filter (fun ev => match ev with ToolCall _ _ => true | _ => false end) events).

End Agent.

Arguments ActionInput JSON : clear implicits.
Arguments Tool JSON : clear implicits.
Arguments AgentPro JSON : clear implicits.
Arguments Event : clear implicits.

(** ** Collaborators used in the examples *)

Module Examples.

(** A stand-in for [json.loads] that knows the three literals [null],
    [true] and [false] and rejects everything else. *)
Inductive atom : Type := JNull | JBool (b : bool).

Definition loads_atom (s : string) : option atom :=
  if s =? "null" then Some JNull
  else if s =? "true" then Some (JBool true)
  else if s =? "false" then Some (JBool false)
  else None.

(** A tool under its display name; it answers every input. *)
Definition search_tool : Tool atom :=
  {| name := "Ares Internet Search Tool";
     get_tool_description := "Tool to search real-time relevant content from the internet.";
     run := fun _ => Ok "Paris is the capital of France." |}.

(** The same tool under the name the shipped tools carry. *)
Definition ares_tool : Tool atom :=
  {| name := "ares_internet_search_tool";
     get_tool_description := "Tool to search real-time relevant content from the internet.";
     run := fun _ => Ok "Paris is the capital of France." |}.

(** A tool whose [run] raises. *)
Definition broken_tool : Tool atom :=
  {| name := "calculator";
     get_tool_description := "Evaluates an arithmetic expression.";
     run := fun _ => Raise {| str_of := "division by zero" |} |}.

Definition template (tools tool_names : string) : string :=
  "You have access to the following tools:" ++ nl ++ tools ++ nl
    ++ "Choose the most relevant tool from: [" ++ tool_names ++ "]".

(** Clients: one that muses, one that keeps asking for a tool, one that
    answers at once, one that answers without the colon, one whose call
    fails. *)
Definition musing_model (_ : list Message) : result string :=
  Ok "Thought: I should think about this a little more.".


Definition answering_model (_ : list Message) : result string :=
  Ok ("Thought: I know this." ++ nl ++ "Final Answer: Rome." ++ nl
        ++ "Final Answer: Paris. ").

Definition vague_model (_ : list Message) : result string :=
  Ok " My Final Answer is Paris. ".

Definition failing_model (_ : list Message) : result string :=
  Raise {| str_of := "Connection error." |}.

Definition agent_with (llm : list Message -> result string) : AgentPro atom :=
  init llm [search_tool; broken_tool] (Some "Be brief.") template.

Definition question : string := "What is the capital of France?".

End Examples.

(** ** What a run leaves in the history *)


(** A string that is not empty and has no whitespace at either end. *)
Definition clean (x : string) : Prop :=
  x <> "" /\ lstrip x = x /\ rstrip x = x.

(** ** [str.strip(chars)] *)

(** [s.lstrip(chars)], [s.rstrip(chars)] and [s.strip(chars)]: the
    characters of [chars] are removed from the ends of [s]. *)
Fixpoint lstrip_chars (chars s : string) : string :=
  match s with
  | "" => ""
  | String c s' => if has_char c chars then lstrip_chars chars s' else s
  end.

Fixpoint rstrip_chars (chars s : string) : string :=
  match s with
  | "" => ""
  | String c s' =>
      match rstrip_chars chars s' with
      | "" => if has_char c chars then "" else String c ""
      | r => String c r
      end
  end.

Definition strip_chars (chars s : string) : string :=
  rstrip_chars chars (lstrip_chars chars s).

(** The single and the double quote, the argument of the [strip] calls of
    the tools. *)
Definition quotes : string := String squote (String dquote "").

(** ** The tools of [agentpro/tools/ares_tool.py] *)

Module Ares.

Section Tools.

(** What the parser decoded, and [str] of it. *)
Context {JSON : Type}.
Variable py_str : JSON -> string.

(** [str(prompt)] for the argument of [run]. *)
Definition as_str (prompt : ActionInput JSON) : string :=
  match prompt with
  | Text s => s
  | Decoded v => py_str v
  end.

(** *** [MockAresInternetTool.run] *)

Definition conference_info : string :=
  join nl
    ["";
     "### Overview of Optimized AI 2025 Conference";
     "";
     "- **Event Name**: Optimized AI Conference 2025";
     "- **Dates**: April 14-16, 2025";
     "  - **Conference Talks**: April 14-15";
     "  - **Workshops**: April 16";
     "- **Location**: San Francisco, CA";
     "";
     "- **Description**: ";
     "  - The Optimized AI Conference is the premier event focused on AI in "
       ++ "production. It aims to bring together over 100 industry leaders, ventu"
       ++ "re capitalists, and executive decision-makers across 12 specialized tr"
       ++ "acks. The conference is designed to facilitate the scaling of real-wor"
       ++ "ld AI solutions more rapidly.";
     "  - Attendees will have the opportunity to explore cutting-edge use ca"
       ++ "ses, tools, and strategies that help transition from pilot projects to"
       ++ " full enterprise deployment.";
     "";
     "- **Key Features**:";
     "  - **Tracks**: 12 focused tracks covering various aspects of AI.";
     "  - **Speakers**: Insights from experts at leading AI companies, inclu"
       ++ "ding NVIDIA, Google, and OpenAI.";
     "  - **Networking**: Opportunities to connect with industry leaders and"
       ++ " peers.";
     "  - **Workshops**: Practical sessions aimed at enhancing understanding"
       ++ " and application of AI technologies.";
     "";
     "This conference is an essential event for anyone involved in AI, provi"
       ++ "ding valuable insights and practical knowledge to optimize AI applicat"
       ++ "ions in various industries.";
     "            "].

Definition mock_run (prompt : ActionInput JSON) : string :=
  let prompt := strip_chars quotes (lower (as_str prompt)) in
  if contains "optimized ai" prompt && contains "conference" prompt
     && contains "2025" prompt
  then conference_info
  else "Here is information about: " ++ prompt ++ nl ++ nl
         ++ "This is mock data for testing purposes.".

(** *** [AresInternetTool] *)

(** The values [response.json()] can return.  A number is kept as it is,
    with its truth value; the items of a [dict] have distinct keys. *)
Context {Number : Type}.
Variable number_truth : Number -> bool.

#[local] Unset Elimination Schemes.

Inductive value : Type :=
| VNone
| VBool (b : bool)
| VNum (x : Number)
| VStr (s : string)
| VList (l : list value)
| VDict (items : list (string * value)).

#[local] Set Elimination Schemes.

(** The exceptions that the operations on such a value raise, and the
    text [str(e)] gives for each. *)
Inductive fault : Type :=
| NotContainer (v : value)
| BadIndex (v : value) (k : string)
| MissingKey (k : string)
| NoAttribute (v : value) (attribute : string).

Variable describe : fault -> string.

Definition raise {A : Type} (f : fault) : result A :=
  Raise {| str_of := describe f |}.

Definition bind {A B : Type} (r : result A) (k : A -> result B) : result B :=
  match r with
  | Ok a => k a
  | Raise e => Raise e
  end.

(** [k in v] for a [str] [k] *)
Definition py_in (k : string) (v : value) : result bool :=
  match v with
  | VDict items => Ok (existsb (fun kv => fst kv =? k) items)
  | VList l =>
      Ok (existsb (fun x => match x with VStr s => s =? k | _ => false end) l)
  | VStr s => Ok (contains k s)
  | _ => raise (NotContainer v)
  end.

(** [v[k]] for a [str] [k] *)
Definition subscript (v : value) (k : string) : result value :=
  match v with
  | VDict items =>
      match Dict.get items k with
      | Some x => Ok x
      | None => raise (MissingKey k)
      end
  | _ => raise (BadIndex v k)
  end.

(** [list(v.keys())] *)
Definition keys_of (v : value) : result (list string) :=
  match v with
  | VDict items => Ok (Dict.keys items)
  | _ => raise (NoAttribute v "keys")
  end.

(** [bool(v)] *)
Definition truth (v : value) : bool :=
  match v with
  | VNone => false
  | VBool b => b
  | VNum x => number_truth x
  | VStr s => truthy s
  | VList l => match l with [] => false | _ => true end
  | VDict items => match items with [] => false | _ => true end
  end.

(** What [requests.post] gives back, as far as [run] reads it:
    [response.status_code], [response.text], what [response.json()]
    returns or the [ValueError] it raises, and the [HTTPError] that
    [raise_for_status] raises when the status is an error. *)
Record Response : Type := {
  status_code : nat;
  text : string;
  json : result value;
  status_error : Exception
}.

(** The call [requests.post(url, json={"query": [prompt]}, headers=..,
    timeout=45)]: a response, a [RequestException], or another exception. *)
Inductive Post : Type :=
| Responded (response : Response)
| RequestFailed (e : Exception)
| Crashed (e : Exception).

Variable post : string -> string -> string -> Post.

Definition no_information : string :=
  "No information found for this query. Please try a different search term.".

(** The [if]/[else] on [result], the decoded body, here [res].  What it
    raises is no [ValueError], so it leaves the inner [try]. *)
Definition read_result (res : value) : result string :=
  bind (py_in "data" res) (fun has_data =>
  bind (if has_data
        then bind (subscript res "data") (py_in "response_text")
        else Ok false) (fun expected =>
  if expected then
    bind (subscript res "data") (fun data =>
    bind (subscript data "response_text") (fun response_text =>
    match response_text with
    | VStr s =>
        if negb (truthy s) || (strip s =? "") then Ok no_information else Ok s
    | other =>
        if truth other then raise (NoAttribute other "strip")
        else Ok no_information
    end))
  else
    let error_msg := "Error: Unexpected API response structure." in
    if has_data then
      bind (subscript res "data") (fun data =>
      bind (keys_of data) (fun ks =>
      Ok (error_msg ++ " Data keys: " ++ repr_list ks)))
    else
      bind (keys_of res) (fun ks =>
      Ok (error_msg ++ " Response keys: " ++ repr_list ks)))).

(** The inner [try]: [response.json()], then the reading of the result;
    a [ValueError] of [response.json()] is reported with the start of
    the raw text. *)
Definition read_response (response : Response) : result string :=
  match json response with
  | Raise e =>
      Ok ("Error: Could not parse API response - " ++ str_of e
            ++ ". Raw response preview: " ++ take 200 (text response))
  | Ok res => read_result res
  end.

(** [AresInternetTool.run] of a tool with the fields [url] and
    [x_api_key]. *)
Definition run (url x_api_key : string) (prompt : ActionInput JSON) : string :=
  let prompt := strip_chars quotes (as_str prompt) in
  match post url x_api_key prompt with
  | RequestFailed e => "Error: HTTP request failed - " ++ str_of e
  | Crashed e => "Error: Unexpected error in Ares tool - " ++ str_of e
  | Responded response =>
      if Nat.leb 400 (status_code response) && Nat.ltb (status_code response) 600
      then "Error: HTTP request failed - " ++ str_of (status_error response)
      else
        match read_response response with
        | Ok answer => answer
        | Raise e => "Error: Unexpected error in Ares tool - " ++ str_of e
        end
  end.

End Tools.

Arguments value Number : clear implicits.
Arguments fault Number : clear implicits.
Arguments Response Number : clear implicits.
Arguments Post Number : clear implicits.

End Ares.

(** ** Collaborators used in the examples of the tools *)

Module AresExamples.

(** [str] of the values of [Examples.loads_atom]. *)
Definition py_str (v : Examples.atom) : string :=
  match v with
  | Examples.JNull => "None"
  | Examples.JBool true => "True"
  | Examples.JBool false => "False"
  end.

(** Numbers, for the examples, are natural numbers. *)
Definition number_truth (n : nat) : bool := negb (Nat.eqb n 0).

Definition describe (f : Ares.fault nat) : string :=
  match f with
  | Ares.NotContainer _ => "argument is not iterable"
  | Ares.BadIndex _ _ => "indices must be integers"
  | Ares.MissingKey k => repr k
  | Ares.NoAttribute _ attribute => "object has no attribute '" ++ attribute ++ "'"
  end.

Definition good_body : Ares.value nat :=
  Ares.VDict
    [("data",
      Ares.VDict [("response_text", Ares.VStr "Paris is the capital of France.");
                  ("web_url", Ares.VList [])])].

(** A service that knows one query, answers another with a body of the
    wrong shape, and is out of reach for the rest. *)
Definition post (url key query : string) : Ares.Post nat :=
  if query =? "capital of France" then
    Ares.Responded
      {| Ares.status_code := 200;
         Ares.text := "{...}";
         Ares.json := Ok good_body;
         Ares.status_error := {| str_of := "" |} |}
  else if query =? "capital" then
    Ares.Responded
      {| Ares.status_code := 200;
         Ares.text := "[1, 2]";
         Ares.json := Ok (Ares.VList [Ares.VNum 1; Ares.VNum 2]);
         Ares.status_error := {| str_of := "" |} |}
  else Ares.RequestFailed {| str_of := "Read timed out." |}.

Definition url : string := "https://api-ares.traversaal.ai/live/predict".


End AresExamples.

(** ** Facts about the [str] builtins *)

Section StringFacts.

Example split_lines :
  split nl ("Thought: x" ++ nl ++ nl ++ "Action: t" ++ nl)
  = ["Thought: x"; ""; "Action: t"; ""].
Proof. reflexivity. Qed.

Example split_from_the_left : split "aa" "aaaaa" = [""; ""; "a"].
Proof. reflexivity. Qed.

Example split_marker :
  split "Final Answer:" "a Final Answer: b Final Answer: c" = ["a "; " b "; " c"].
Proof. reflexivity. Qed.

Example strip_both_ends :
  strip (String (ascii_of_nat 9) "  a b " ++ nl) = "a b".
Proof. reflexivity. Qed.

Example lower_keeps_spaces :
  lower "Ares Internet Search Tool" = "ares internet search tool".
Proof. reflexivity. Qed.

Example replace_every_occurrence :
  replace "Action:" "" "Action: a Action: b" = " a  b".
Proof. reflexivity. Qed.

Example repr_list_quotes :
  repr_list ["calculator"; "it's"; "a" ++ nl]
  = "['calculator', " ++ String dquote ("it's" ++ String dquote (", 'a" ++ String backslash "n']")).
Proof. reflexivity. Qed.

Lemma append_nil_r (s : string) : s ++ "" = s.
Proof. induction s as [|c s IH]; simpl; [|rewrite IH]; reflexivity. Qed.

Lemma append_assoc (a b c : string) : (a ++ b) ++ c = a ++ b ++ c.
Proof. induction a as [|x a IH]; simpl; [|rewrite IH]; reflexivity. Qed.

Lemma length_append (a b : string) : length (a ++ b) = length a + length b.
Proof. induction a as [|x a IH]; simpl; [|rewrite IH]; reflexivity. Qed.

Lemma length_drop (n : nat) (s : string) : length (drop n s) = length s - n.
Proof. revert s; induction n as [|n IH]; intros [|c s]; simpl; auto. Qed.

Lemma length_take (n : nat) (s : string) : length (take n s) = Nat.min n (length s).
Proof. revert s; induction n as [|n IH]; intros [|c s]; simpl; auto. Qed.

Lemma take_drop (n : nat) (s : string) : take n s ++ drop n s = s.
Proof.
  revert s; induction n as [|n IH]; intros [|c s]; simpl; auto.
  now rewrite IH.
Qed.

Lemma drop_append_length (a b : string) : drop (length a) (a ++ b) = b.
Proof. induction a as [|x a IH]; simpl; [destruct b|]; auto. Qed.

Lemma drop_append_le (n : nat) (a b : string) :
  n <= length a -> drop n (a ++ b) = drop n a ++ b.
Proof.
  revert a; induction n as [|n IH]; intros [|x a]; simpl; intros L;
    try reflexivity; try lia.
  apply IH; lia.
Qed.

Lemma drop_drop (n m : nat) (s : string) : drop n (drop m s) = drop (m + n) s.
Proof.
  revert s; induction m as [|m IH]; intros [|c s]; simpl; auto.
  now destruct n.
Qed.

(** [startswith] is being an initial segment. *)
Lemma prefix_iff (p s : string) :
  prefix p s = true <-> exists t, s = p ++ t.
Proof.
  revert s; induction p as [|c p IH]; intros s; simpl.
  - destruct s; split; eauto.
  - destruct s as [|d s]; simpl; [split; [discriminate | intros [t [=]]]|].
    destruct (ascii_dec c d) as [->|N].
    + rewrite IH; split; intros [t E]; exists t; congruence.
    + split; [discriminate | intros [t [=]]; congruence].
Qed.

(** An occurrence of [sub] in [s] that starts at index [length pre]. *)
Lemma occurrence_drop (sub s pre post : string) :
  s = pre ++ sub ++ post -> drop (length pre) s = sub ++ post.
Proof. intros ->. apply drop_append_length. Qed.

Lemma contains_iff (sub s : string) :
  contains sub s = true <-> exists pre post, s = pre ++ sub ++ post.
Proof.
  induction s as [|c s IH]; cbn [contains].
  - rewrite orb_false_r, prefix_iff. split.
    + intros [t E]. exists "", t. exact E.
    + intros [[|x pre] [post E]]; [eauto | discriminate].
  - rewrite orb_true_iff, IH, prefix_iff. split.
    + intros [[t E] | [pre [post E]]].
      * exists "", t. exact E.
      * exists (String c pre), post. simpl. now rewrite E.
    + intros [[|x pre] [post E]].
      * left. exists post. exact E.
      * right. exists pre, post. simpl in E. congruence.
Qed.

Lemma find_none (sub s : string) :
  find sub s = None <-> contains sub s = false.
Proof.
  induction s as [|c s IH]; cbn [contains find].
  - destruct (prefix sub ""); simpl; split; congruence.
  - destruct (prefix sub (String c s)); simpl; [split; congruence|].
    rewrite <- IH. destruct (find sub s); simpl; split; congruence.
Qed.

(** [find] gives the first occurrence. *)
Lemma find_some (sub s : string) (i : nat) :
  find sub s = Some i ->
  s = take i s ++ sub ++ drop (i + length sub) s /\ length (take i s) = i.
Proof.
  revert i; induction s as [|c s IH]; intros i; cbn [find].
  - destruct (prefix sub "") eqn:P; [|discriminate].
    intros [= <-]. apply prefix_iff in P as [t E].
    destruct sub; [|discriminate]. now split.
  - destruct (prefix sub (String c s)) eqn:P.
    + intros [= <-]. apply prefix_iff in P as [t E]. split; [|reflexivity].
      cbn [take Nat.add]. rewrite E at 2. rewrite drop_append_length.
      exact E.
    + destruct (find sub s) as [j|]; [|discriminate]. simpl.
      intros [= <-]. destruct (IH j eq_refl) as [E L]. split.
      * simpl. now rewrite <- E.
      * simpl. now rewrite L.
Qed.

Lemma find_first (sub s pre post : string) (i : nat) :
  find sub s = Some i -> s = pre ++ sub ++ post -> i <= length pre.
Proof.
  revert i pre; induction s as [|c s IH]; intros i pre; cbn [find].
  - destruct (prefix sub ""); [|discriminate]. intros [= <-]; lia.
  - destruct (prefix sub (String c s)) eqn:P; [intros [= <-]; lia|].
    destruct (find sub s) as [j|]; [|discriminate]. simpl.
    intros [= <-] E. destruct pre as [|x pre].
    + simpl in E. assert (prefix sub (String c s) = true) as Q
        by (apply prefix_iff; eauto). congruence.
    + simpl in E. injection E as _ E. specialize (IH j pre eq_refl E).
      simpl. lia.
Qed.

(** The recursion equation of [split]. *)
Lemma split_unfold (a : ascii) (sep' s : string) :
  split (String a sep') s =
  match find (String a sep') s with
  | None => [s]
  | Some i => take i s :: split (String a sep') (drop (i + S (length sep')) s)
  end.
Proof.
  rewrite split_equation_2.
  destruct (inspect (find (String a sep') s)) as [[i|] e]; simpl;
    rewrite e; reflexivity.
Qed.

Lemma split_absent (sep s : string) :
  contains sep s = false -> split sep s = [s].
Proof.
  destruct sep as [|a sep']; [reflexivity|].
  intros H. apply find_none in H. now rewrite split_unfold, H.
Qed.

Lemma split_not_nil (sep s : string) : split sep s <> [].
Proof.
  destruct sep as [|a sep']; [discriminate|].
  rewrite split_unfold. destruct (find _ _); discriminate.
Qed.

Lemma last_cons {A : Type} (x : A) (l : list A) (d : A) :
  l <> [] -> last (x :: l) d = last l d.
Proof. destruct l; [congruence | reflexivity]. Qed.

End StringFacts.

(** The last piece of [split]: for a separator no two occurrences of which
    can overlap, it is the text behind the last occurrence. *)
Section LastPiece.

Variable sep : string.
Hypothesis sep_not_empty : sep <> "".
Hypothesis no_overlap :
  forall k t u, 0 < k < length sep -> drop k (sep ++ t) <> sep ++ u.

Lemma occurrences_apart (s p1 q1 p2 q2 : string) :
  s = p1 ++ sep ++ q1 -> s = p2 ++ sep ++ q2 ->
  length p1 < length p2 -> length p1 + length sep <= length p2.
Proof.
  intros E1 E2 L.
  destruct (le_lt_dec (length p1 + length sep) (length p2)) as [|K]; [assumption|].
  exfalso. apply (no_overlap (length p2 - length p1) q1 q2); [lia|].
  rewrite <- (occurrence_drop sep s p1 q1 E1), drop_drop.
  replace (length p1 + (length p2 - length p1)) with (length p2) by lia.
  now apply occurrence_drop.
Qed.

Lemma later_occurrence (s pre' post' : string) (i : nat) :
  s = pre' ++ sep ++ post' -> i <= length pre' ->
  drop i s = drop i pre' ++ sep ++ post' /\
  length (drop i pre') = length pre' - i.
Proof.
  intros -> L. split; [now apply drop_append_le | apply length_drop].
Qed.

Lemma split_last_piece (s : string) :
  contains sep s = true ->
  exists pre post,
    s = pre ++ sep ++ post /\
    (forall pre' post', s = pre' ++ sep ++ post' -> length pre' <= length pre) /\
    last (split sep s) "" = post.
Proof.
  remember (length s) as n eqn:N. revert s N.
  induction n as [n IH] using lt_wf_ind. intros s N C.
  destruct (find sep s) as [i|] eqn:F;
    [|apply find_none in F; congruence].
  destruct (find_some _ _ _ F) as [E Li].
  set (rest := drop (i + length sep) s) in *.
  assert (length rest < n) as Lr.
  { pose proof (f_equal length E) as Q.
    rewrite !length_append in Q. destruct sep; [congruence|]. simpl in *. lia. }
  assert (split sep s = take i s :: split sep rest) as U.
  { unfold rest. destruct sep as [|a sep']; [congruence|].
    now rewrite split_unfold, F. }
  assert (forall pre' post', s = pre' ++ sep ++ post' -> i < length pre' ->
            rest = drop (i + length sep) pre' ++ sep ++ post' /\
            length (drop (i + length sep) pre') = length pre' - (i + length sep) /\
            i + length sep <= length pre') as Later.
  { intros pre' post' E' L'.
    assert (i + length sep <= length pre') as A.
    { rewrite <- Li at 1. apply (occurrences_apart s (take i s) rest pre' post'); auto.
      now rewrite Li. }
    destruct (later_occurrence s pre' post' (i + length sep) E' A) as [R1 R2].
    auto. }
  destruct (contains sep rest) eqn:Cr.
  - destruct (IH (length rest) Lr rest eq_refl Cr) as (pre2 & post & E2 & L2 & Last2).
    exists (take i s ++ sep ++ pre2), post. repeat split.
    + rewrite E at 1. rewrite E2. now rewrite !append_assoc.
    + intros pre' post' E'. rewrite !length_append, Li.
      destruct (le_lt_dec (length pre') i) as [|L']; [lia|].
      destruct (Later pre' post' E' L') as (R1 & R2 & R3).
      specialize (L2 _ _ R1). lia.
    + rewrite U, last_cons by apply split_not_nil. exact Last2.
  - exists (take i s), rest. repeat split.
    + exact E.
    + intros pre' post' E'. rewrite Li.
      destruct (le_lt_dec (length pre') i) as [|L']; [assumption|].
      destruct (Later pre' post' E' L') as (R1 & _).
      assert (contains sep rest = true) by (apply contains_iff; eauto).
      congruence.
    + rewrite U, (split_absent sep rest Cr). reflexivity.
Qed.

End LastPiece.

(** No occurrence of the marker overlaps another: its first letter does
    not come back in it. *)
Lemma final_answer_no_overlap (k : nat) (t u : string) :
  0 < k < length "Final Answer:" ->
  drop k ("Final Answer:" ++ t) <> "Final Answer:" ++ u.
Proof.
  intros [L U]. simpl in U.
  do 13 (destruct k as [|k]; [try lia; simpl; discriminate|]).
  lia.
Qed.

(** ** The conversation loop *)

Section LoopFacts.

Context {JSON : Type}.
Variable json_loads : string -> option JSON.

Lemma marker_with_colon (s : string) :
  contains "Final Answer:" s = true -> contains "Final Answer" s = true.
Proof.
  rewrite !contains_iff. intros (pre & post & ->).
  exists pre, (":" ++ post). reflexivity.
Qed.

(** The loop with its first step written out. *)
Lemma loop_final_answer (self : AgentPro JSON) (remaining : nat) (text : string) :
  client self (messages self) = Ok text ->
  contains "Final Answer" (strip text) = true ->
  loop json_loads (S remaining) self =
  {| answer := strip (last (split "Final Answer:" (strip text)) "");
     final := append_message self assistant (strip text);
     trace := [ModelCall (Ok text)] |}.
Proof. intros C F. cbn [loop]. now rewrite C, F. Qed.

(** C2: a reply that contains [Final Answer:] ends the loop in that
    step; the value returned is the text behind the last [Final Answer:]
    of the reply, stripped, however many markers come before it; the
    reply is appended to the history and [tool_call] is not run. *)
Theorem final_answer_is_text_after_last_marker
    (self : AgentPro JSON) (remaining : nat) (text : string) :
  client self (messages self) = Ok text ->
  contains "Final Answer:" (strip text) = true ->
  exists pre post,
    strip text = pre ++ "Final Answer:" ++ post /\
    (forall pre' post',
        strip text = pre' ++ "Final Answer:" ++ post' ->
        length pre' <= length pre) /\
    answer (loop json_loads (S remaining) self) = strip post /\
    trace (loop json_loads (S remaining) self) = [ModelCall (Ok text)] /\
    tool_calls (trace (loop json_loads (S remaining) self)) = 0 /\
    messages (final (loop json_loads (S remaining) self)) =
      (messages self ++ [{| role := assistant; content := strip text |}])%list.
Proof.
  intros C F.
  destruct (split_last_piece "Final Answer:" ltac:(discriminate)
              final_answer_no_overlap (strip text) F)
    as (pre & post & E & L & Last).
  exists pre, post.
  rewrite (loop_final_answer self remaining text C (marker_with_colon _ F)).
  cbn [answer trace final]. rewrite Last. repeat split; auto.
Qed.

(** C10: a reply that contains [Final Answer] but nowhere
    [Final Answer:] also ends the loop in that step, and the value
    returned is the whole reply, stripped. *)
Theorem final_answer_without_colon_returns_reply
    (self : AgentPro JSON) (remaining : nat) (text : string) :
  client self (messages self) = Ok text ->
  contains "Final Answer" (strip text) = true ->
  contains "Final Answer:" (strip text) = false ->
  answer (loop json_loads (S remaining) self) = strip (strip text) /\
  trace (loop json_loads (S remaining) self) = [ModelCall (Ok text)] /\
  messages (final (loop json_loads (S remaining) self)) =
    (messages self ++ [{| role := assistant; content := strip text |}])%list.
Proof.
  intros C F N.
  rewrite (loop_final_answer self remaining text C F).
  cbn [answer trace final]. rewrite (split_absent _ _ N).
  repeat split.
Qed.

(** C8: when the completion call raises, the loop returns at once with
    an error string that carries the exception's text; the agent, and
    with it the history, is as it was before the call: no assistant
    message is appended, and nothing else is called. *)
Theorem model_failure_aborts_turn
    (self : AgentPro JSON) (remaining : nat) (e : Exception) :
  client self (messages self) = Raise e ->
  answer (loop json_loads (S remaining) self) =
    "Error: Could not get a response from the model - " ++ str_of e /\
  final (loop json_loads (S remaining) self) = self /\
  messages (final (loop json_loads (S remaining) self)) = messages self /\
  trace (loop json_loads (S remaining) self) = [ModelCall (Raise e)].
Proof.
  intros C. cbn [loop]. rewrite C. repeat split.
Qed.





(** Every step of the loop, and so every call, only appends. *)
Lemma loop_appends (n : nat) (self : AgentPro JSON) :
  exists suffix, messages (final (loop json_loads n self)) = (messages self ++ suffix)%list.
Proof.
  revert self; induction n as [|n IH]; intros self; cbn [loop].
  - exists []. cbn. now rewrite app_nil_r.
  - destruct (client self (messages self)) as [text|e].
    + destruct (contains "Final Answer" (strip text)).
      * eexists. reflexivity.
      * destruct (contains "Action" (strip text) && contains "Action Input" (strip text));
          match goal with |- context [loop _ n ?a] =>
            destruct (IH a) as [suffix E] end;
          unfold after; cbn [final]; rewrite E; cbn [messages append_message];
          rewrite <- ?app_assoc; eexists; reflexivity.
    + exists []. cbn. now rewrite app_nil_r.
Qed.

Lemma call_appends (self : AgentPro JSON) (prompt : string) :
  exists suffix,
    messages (final (call json_loads self prompt)) =
      (messages self ++ {| role := user; content := prompt |} :: suffix)%list.
Proof.
  unfold call.
  destruct (loop_appends max_steps (append_message self user prompt)) as [suffix E].
  exists suffix. rewrite E. cbn [messages append_message].
  now rewrite <- app_assoc.
Qed.

Lemma fold_appends {A : Type} (step : AgentPro JSON -> A -> AgentPro JSON) :
  (forall a x, exists suffix, messages (step a x) = (messages a ++ suffix)%list) ->
  forall (l : list A) (a : AgentPro JSON),
    exists suffix, messages (fold_left step l a) = (messages a ++ suffix)%list.
Proof.
  intros H l; induction l as [|x l IH]; intros a; cbn [fold_left].
  - exists []. now rewrite app_nil_r.
  - destruct (IH (step a x)) as [s1 E1]. destruct (H a x) as [s2 E2].
    exists (s2 ++ s1)%list. now rewrite E1, E2, <- app_assoc.
Qed.

Lemma session_appends (self : AgentPro JSON) (prompts : list string) :
  exists suffix,
    messages (session json_loads self prompts) = (messages self ++ suffix)%list.
Proof.
  apply fold_appends. intros a x. destruct (call_appends a x) as [suffix E].
  eexists. exact E.
Qed.

(** C9: after [__init__] the history is the optional custom preamble
    followed by the instruction prompt, both system messages; after any
    sequence of calls it still begins with exactly these entries, and
    each call leaves the history it found as a prefix of the history
    it leaves: entries are added at the end, none is removed, moved or
    changed. *)
Theorem history_is_append_only
    (llm : list Message -> result string) (tool_list : list (Tool JSON))
    (system_prompt : option string) (template : string -> string -> string)
    (prompts : list string) (prompt : string) :
  let fresh := init llm tool_list system_prompt template in
  let now := session json_loads fresh prompts in
  let instruction := {| role := system; content := react_prompt fresh |} in
  (messages fresh = [instruction] \/
   exists p, system_prompt = Some p /\ p <> "" /\
     messages fresh = [{| role := system; content := p |}; instruction]) /\
  (exists suffix, messages now = (messages fresh ++ suffix)%list) /\
  (exists suffix,
      messages (final (call json_loads now prompt)) =
        (messages now ++ {| role := user; content := prompt |} :: suffix)%list).
Proof.
  cbv zeta. split; [|split].
  - unfold init; cbn [messages react_prompt].
    destruct system_prompt as [p|]; [|now left].
    unfold truthy. destruct (eqb_spec p "") as [->|N]; cbn; [now left|].
    right. exists p. auto.
  - apply session_appends.
  - apply call_appends.
Qed.

End LoopFacts.

(** ** The action parser and the dispatcher *)

Section ParserFacts.

Context {JSON : Type}.
Variable json_loads : string -> option JSON.

(** A line that none of the three markers opens. *)
Lemma parse_line_plain (st : ParserState) (line : string) :
  startswith "Action:" line = false ->
  startswith "Action Input:" line = false ->
  startswith "Observation:" line = false ->
  parse_line st line =
  if is_action_input st && truthy (strip line) then
    {| action := action st;
       action_input := (action_input st ++ [strip line])%list;
       is_action_input := is_action_input st |}
  else st.
Proof. intros A I O. unfold parse_line. now rewrite A, I, O. Qed.




(** Removing the marker from a line that begins with it and does not
    contain it again leaves the rest of the line. *)
Lemma replace_leading_marker (a : ascii) (m rest : string) :
  contains (String a m) rest = false ->
  replace (String a m) "" (String a m ++ rest) = rest.
Proof.
  intros N. unfold replace.
  assert (find (String a m) (String a m ++ rest) = Some 0) as F.
  { destruct (String a m ++ rest) eqn:E; [discriminate|]. rewrite <- E.
    rewrite E at 1. cbn [find]. rewrite <- E.
    assert (prefix (String a m) (String a m ++ rest) = true) as P
        by (apply prefix_iff; eauto).
    now rewrite P. }
  rewrite split_unfold, F. cbn [take Nat.add].
  change (S (length m)) with (length (String a m)).
  rewrite drop_append_length, (split_absent _ _ N). reflexivity.
Qed.

(** Lines without [Action:] leave the action alone. *)
Lemma scan_keeps_action (lines : list string) (st : ParserState) :
  (forall line, In line lines -> startswith "Action:" line = false) ->
  action (fold_left parse_line lines st) = action st.
Proof.
  revert st; induction lines as [|line lines IH]; intros st H; cbn [fold_left];
    [reflexivity|].
  rewrite IH by (intros l Hl; apply H; now right).
  unfold parse_line. rewrite (H line (or_introl eq_refl)).
  repeat match goal with |- context [if ?b then _ else _] => destruct b end;
    reflexivity.
Qed.

(** Lines without [Action Input:] collect nothing when the flag is
    not set. *)
Lemma scan_collects_nothing (lines : list string) (st : ParserState) :
  is_action_input st = false ->
  (forall line, In line lines -> startswith "Action Input:" line = false) ->
  action_input (fold_left parse_line lines st) = action_input st.
Proof.
  revert st; induction lines as [|line lines IH]; intros st F H; cbn [fold_left];
    [reflexivity|].
  assert (is_action_input (parse_line st line) = false /\
          action_input (parse_line st line) = action_input st) as [F' E].
  { unfold parse_line. rewrite (H line (or_introl eq_refl)), F. cbn [andb].
    repeat match goal with |- context [if ?b then _ else _] => destruct b end;
      auto. }
  rewrite IH; auto. intros l Hl. apply H. now right.
Qed.

(** C4: when the tool that an action resolves to raises in [run], the
    dispatcher returns the observation that reports the error, made of
    the [Observation:] prefix, the words "error executing the tool" and
    the text of the exception; the exception goes no further. *)
Theorem tool_exception_becomes_observation
    (self : AgentPro JSON) (response name : string) (input : ActionInput JSON)
    (tool : Tool JSON) (e : Exception) :
  parse_action_string json_loads response = (Some name, input) ->
  truthy name = true ->
  Dict.get (tools self) (lower (strip name)) = Some tool ->
  run tool input = Raise e ->
  tool_call json_loads self response =
    "Observation: There was an error executing the tool" ++ nl
      ++ "Error: " ++ str_of e /\
  startswith "Observation:" (tool_call json_loads self response) = true /\
  contains "error" (tool_call json_loads self response) = true.
Proof.
  intros P T G R.
  assert (tool_call json_loads self response =
          "Observation: There was an error executing the tool" ++ nl
            ++ "Error: " ++ str_of e) as E.
  { unfold tool_call, tool_call_body. now rewrite P, T, G, R. }
  rewrite E. split; [reflexivity|]. split; reflexivity.
Qed.



(** C7 (amended): a line that begins with [Action:], and in which the
    marker does not occur again, sets the action to the rest of the
    line, stripped, and changes neither the buffer nor the collecting
    flag; so a plain line that follows it is collected exactly when the
    flag was set before the [Action:] line. *)
Theorem action_line_sets_action_and_keeps_flag
    (st : ParserState) (rest next : string) :
  contains "Action:" rest = false ->
  startswith "Action:" next = false ->
  startswith "Action Input:" next = false ->
  startswith "Observation:" next = false ->
  parse_line st ("Action:" ++ rest) =
    {| action := Some (strip rest);
       action_input := action_input st;
       is_action_input := is_action_input st |} /\
  action_input (parse_line (parse_line st ("Action:" ++ rest)) next) =
    if is_action_input st && truthy (strip next)
    then (action_input st ++ [strip next])%list
    else action_input st.
Proof.
  intros N A I O.
  assert (parse_line st ("Action:" ++ rest) =
          {| action := Some (strip rest);
             action_input := action_input st;
             is_action_input := is_action_input st |}) as E.
  { unfold parse_line at 1.
    assert (startswith "Action:" ("Action:" ++ rest) = true) as ->
        by (apply prefix_iff; eauto).
    now rewrite (replace_leading_marker _ _ rest N). }
  split; [exact E|].
  rewrite E, (parse_line_plain _ next A I O).
  cbn [is_action_input action_input].
  now destruct (is_action_input st && truthy (strip next)).
Qed.

End ParserFacts.

(** ** The program on concrete inputs *)

Section Concrete.

Import Examples.

(** C1: [format_tools] keys the registry by [tool.name] as it is, while
    the dispatcher looks up the stripped, lowercased action.  A tool
    registered under the display name "Ares Internet Search Tool" is
    therefore not reached by [Action: ares_internet_search_tool]: the
    dispatcher answers "not found" and lists the display name. *)
Theorem display_name_is_not_normalized :
  let agent := init musing_model [search_tool] None template in
  let response :=
    "Action: ares_internet_search_tool" ++ nl ++ "Action Input: capital of France" in
  Dict.keys (tools agent) = ["Ares Internet Search Tool"] /\
  parse_action_string loads_atom response =
    (Some "ares_internet_search_tool", Text "capital of France") /\
  Dict.get (tools agent) "ares_internet_search_tool" = None /\
  tool_call loads_atom agent response =
    "Observation: Tool 'ares_internet_search_tool' not found. Available tools: ['Ares Internet Search Tool']".
Proof. cbv zeta. repeat split. Qed.

(** A tool whose name is already lowercase is reached, whatever the case
    of the action. *)
Example lowercase_name_is_reached :
  tool_call loads_atom (init musing_model [ares_tool] None template)
    ("Action: Ares_Internet_Search_Tool " ++ nl ++ "Action Input: capital of France")
  = "Observation: Paris is the capital of France.".
Proof. reflexivity. Qed.

Lemma final_answer_witness :
  let self := append_message (agent_with answering_model) user question in
  answer (loop loads_atom (S 9) self) = "Paris." /\
  exists pre post,
    strip ("Thought: I know this." ++ nl ++ "Final Answer: Rome." ++ nl
             ++ "Final Answer: Paris. ")
      = pre ++ "Final Answer:" ++ post /\
    answer (loop loads_atom (S 9) self) = strip post /\
    tool_calls (trace (loop loads_atom (S 9) self)) = 0.
Proof.
  cbv zeta. split; [reflexivity|].
  destruct (final_answer_is_text_after_last_marker loads_atom
              (append_message (agent_with answering_model) user question) 9
              ("Thought: I know this." ++ nl ++ "Final Answer: Rome." ++ nl
                 ++ "Final Answer: Paris. ") eq_refl eq_refl)
    as (pre & post & E & _ & A & _ & T & _).
  exists pre, post. auto.
Defined.

Lemma final_answer_without_colon_witness :
  let self := append_message (agent_with vague_model) user question in
  contains "Final Answer" (strip " My Final Answer is Paris. ") = true /\
  contains "Final Answer:" (strip " My Final Answer is Paris. ") = false /\
  answer (loop loads_atom (S 9) self) = "My Final Answer is Paris.".
Proof.
  cbv zeta. split; [reflexivity|]. split; [reflexivity|].
  exact (proj1 (final_answer_without_colon_returns_reply loads_atom
                  (append_message (agent_with vague_model) user question) 9
                  " My Final Answer is Paris. " eq_refl eq_refl eq_refl)).
Defined.

Lemma model_failure_witness :
  let self := append_message (agent_with failing_model) user question in
  answer (loop loads_atom (S 9) self) =
    "Error: Could not get a response from the model - Connection error." /\
  messages (final (loop loads_atom (S 9) self)) = messages self.
Proof.
  cbv zeta.
  destruct (model_failure_aborts_turn loads_atom
              (append_message (agent_with failing_model) user question) 9
              {| str_of := "Connection error." |} eq_refl)
    as (A & _ & M & _).
  split; [exact A | exact M].
Defined.



Lemma tool_exception_witness :
  let response := "Action:  Calculator " ++ nl ++ "Action Input: 1/0" in
  parse_action_string loads_atom response = (Some "Calculator", Text "1/0") /\
  tool_call loads_atom (agent_with musing_model) response =
    "Observation: There was an error executing the tool" ++ nl
      ++ "Error: division by zero".
Proof.
  cbv zeta. split; [reflexivity|].
  exact (proj1 (tool_exception_becomes_observation loads_atom
                  (agent_with musing_model)
                  ("Action:  Calculator " ++ nl ++ "Action Input: 1/0")
                  "Calculator" (Text "1/0") broken_tool
                  {| str_of := "division by zero" |}
                  eq_refl eq_refl eq_refl eq_refl)).
Defined.





Lemma action_line_witness :
  let st := {| action := None; action_input := ["a"]; is_action_input := true |} in
  parse_line st ("Action:" ++ " t ") =
    {| action := Some "t"; action_input := ["a"]; is_action_input := true |} /\
  action_input (parse_line (parse_line st ("Action:" ++ " t ")) " b") = ["a"; "b"].
Proof.
  cbv zeta.
  exact (action_line_sets_action_and_keeps_flag
           {| action := None; action_input := ["a"]; is_action_input := true |}
           " t " " b" eq_refl eq_refl eq_refl eq_refl).
Defined.

(** C7, as stated, fails when an [Action:] line comes after an
    [Action Input:] line: the flag stays set, and the line that follows
    is collected although no further [Action Input:] line is read. *)
Lemma action_line_does_not_clear_flag :
  let st := scan_lines ["Action Input: a"] in
  let text := "Action Input: a" ++ nl ++ "Action: t" ++ nl ++ "b" in
  is_action_input st = true /\
  is_action_input (parse_line st "Action: t") = true /\
  is_action_input (parse_line st "Action: t") <> false /\
  parse_action_string loads_atom text = (Some "t", Text ("a" ++ nl ++ "b")) /\
  parse_action_string loads_atom text <> (Some "t", Text "a").
Proof. cbv zeta. repeat split; discriminate. Qed.

End Concrete.

(** ** More facts about the [str] builtins *)

Section TrimFacts.

Lemma lower_char_idempotent (c : ascii) : lower_char (lower_char c) = lower_char c.
Proof. destruct c as [[] [] [] [] [] [] [] []]; reflexivity. Qed.

Lemma lower_idempotent (s : string) : lower (lower s) = lower s.
Proof.
  induction s as [|c s IH]; cbn [lower]; [reflexivity|].
  now rewrite lower_char_idempotent, IH.
Qed.

Lemma lstrip_fixed (c : ascii) (s : string) :
  isspace c = false -> lstrip (String c s) = String c s.
Proof. intros H. cbn [lstrip]. now rewrite H. Qed.

Lemma lstrip_head (s : string) :
  lstrip s = "" \/ exists c t, lstrip s = String c t /\ isspace c = false.
Proof.
  induction s as [|c s IH]; cbn [lstrip]; [now left|].
  destruct (isspace c) eqn:E; [exact IH|]. right. eauto.
Qed.

Lemma rstrip_cons (c : ascii) (s : string) :
  rstrip s <> "" -> rstrip (String c s) = String c (rstrip s).
Proof. intros H. cbn [rstrip]. destruct (rstrip s); [congruence | reflexivity]. Qed.

Lemma rstrip_idempotent (s : string) : rstrip (rstrip s) = rstrip s.
Proof.
  induction s as [|c s IH]; [reflexivity|].
  cbn [rstrip]. destruct (rstrip s) as [|d r] eqn:E.
  - destruct (isspace c) eqn:W; [reflexivity|]. cbn [rstrip]. now rewrite W.
  - rewrite rstrip_cons by (rewrite IH; discriminate). now rewrite IH.
Qed.

Lemma rstrip_keeps_head (c : ascii) (s : string) :
  isspace c = false -> exists t, rstrip (String c s) = String c t.
Proof.
  intros W. cbn [rstrip]. destruct (rstrip s); [rewrite W|]; eauto.
Qed.

(** What [strip] returns has nothing left to strip on either side. *)
Lemma strip_sides (s : string) :
  lstrip (strip s) = strip s /\ rstrip (strip s) = strip s.
Proof.
  unfold strip. split; [|apply rstrip_idempotent].
  destruct (lstrip_head s) as [E | (c & t & E & W)]; rewrite E; [reflexivity|].
  destruct (rstrip_keeps_head c t W) as [u U]. rewrite U. now apply lstrip_fixed.
Qed.


Lemma rstrip_append (a b : string) :
  b <> "" -> rstrip b = b -> rstrip (a ++ b) = a ++ b.
Proof.
  intros N R. induction a as [|c a IH]; cbn [append]; [exact R|].
  rewrite rstrip_cons; rewrite IH; [reflexivity|].
  destruct a; cbn [append]; [assumption | discriminate].
Qed.

Lemma lstrip_append (a b : string) :
  a <> "" -> lstrip a = a -> lstrip (a ++ b) = a ++ b.
Proof.
  intros N L. destruct a as [|c a]; [congruence|].
  cbn [append lstrip] in *. destruct (isspace c); [|reflexivity].
  exfalso. pose proof (f_equal length L) as Q. cbn [length] in Q.
  assert (forall t, length (lstrip t) <= length t) as B.
  { intros t; induction t as [|x t IHt]; cbn [lstrip length]; [lia|].
    destruct (isspace x); cbn [length]; lia. }
  specialize (B a). lia.
Qed.

End TrimFacts.

(** ** The tool registry *)

Section RegistryFacts.

Context {JSON : Type}.
Variable json_loads : string -> option JSON.

Lemma get_set {V : Type} (d : Dict.t V) (k k' : string) (v : V) :
  Dict.get (Dict.set d k v) k' = if k =? k' then Some v else Dict.get d k'.
Proof.
  induction d as [|[k0 v0] d IH]; cbn [Dict.set Dict.get].
  - destruct (eqb_spec k k'); reflexivity.
  - destruct (eqb_spec k0 k) as [->|N]; cbn [Dict.get].
    + destruct (eqb_spec k k'); reflexivity.
    + rewrite IH. destruct (eqb_spec k0 k') as [->|N'];
        destruct (eqb_spec k k'); congruence.
Qed.

Lemma keys_set_in {V : Type} (d : Dict.t V) (k k' : string) (v : V) :
  In k' (Dict.keys (Dict.set d k v)) <-> k' = k \/ In k' (Dict.keys d).
Proof.
  unfold Dict.keys. induction d as [|[k0 v0] d IH]; cbn [Dict.set map In fst].
  - intuition.
  - destruct (eqb_spec k0 k) as [->|N]; cbn [map In fst]; [intuition|].
    rewrite IH. intuition.
Qed.

Lemma keys_set_nodup {V : Type} (d : Dict.t V) (k : string) (v : V) :
  NoDup (Dict.keys d) -> NoDup (Dict.keys (Dict.set d k v)).
Proof.
  induction d as [|[k0 v0] d IH]; intros H.
  - cbn. constructor; [intros [] | constructor].
  - cbn [Dict.set]. destruct (eqb_spec k0 k) as [->|N]; [exact H|].
    inversion H as [|? ? H1 H2]; subst.
    change (NoDup (k0 :: Dict.keys (Dict.set d k v))). constructor; [|auto].
    rewrite keys_set_in. intros [E|I]; [congruence | exact (H1 I)].
Qed.

Lemma of_pairs_snoc {V : Type} (pairs : list (string * V)) (kv : string * V) :
  Dict.of_pairs (pairs ++ [kv]) = Dict.set (Dict.of_pairs pairs) (fst kv) (snd kv).
Proof. unfold Dict.of_pairs. now rewrite fold_left_app. Qed.

Lemma combine_names (tool_list : list (Tool JSON)) :
  combine (map name tool_list) tool_list = map (fun t => (name t, t)) tool_list.
Proof.
  induction tool_list as [|t l IH]; cbn [map combine]; [|rewrite IH]; reflexivity.
Qed.

Lemma format_tools_snoc (tool_list : list (Tool JSON)) (t : Tool JSON) :
  format_tools (tool_list ++ [t]) = Dict.set (format_tools tool_list) (name t) t.
Proof.
  unfold format_tools. rewrite !combine_names, map_app. cbn [map].
  now rewrite of_pairs_snoc.
Qed.

Lemma format_tools_get (tool_list : list (Tool JSON)) (k : string) :
  Dict.get (format_tools tool_list) k
  = List.find (fun t => name t =? k) (rev tool_list).
Proof.
  induction tool_list as [|t l IH] using rev_ind; [reflexivity|].
  rewrite format_tools_snoc, get_set, rev_app_distr. cbn [rev app List.find].
  now rewrite IH.
Qed.

(** X1: looking a key up in the registry that [format_tools] builds gives
    the last tool of the list that carries exactly that name, and nothing
    when no tool does: of two tools with one name the later one wins. *)
Theorem registry_lookup_is_last_of_that_name
    (tool_list : list (Tool JSON)) (k : string) :
  Dict.get (format_tools tool_list) k
  = List.find (fun t => name t =? k) (rev tool_list).
Proof. apply format_tools_get. Qed.

(** X2: the keys of the registry are the names of the tools, each once:
    no key is repeated, and a string is a key exactly when some tool of
    the list has it as its name. *)
Theorem registry_keys_are_the_names (tool_list : list (Tool JSON)) :
  NoDup (Dict.keys (format_tools tool_list)) /\
  (forall k, In k (Dict.keys (format_tools tool_list)) <->
             In k (map name tool_list)).
Proof.
  induction tool_list as [|t l [N I]] using rev_ind.
  - split; [constructor | reflexivity].
  - rewrite format_tools_snoc. split; [now apply keys_set_nodup|].
    intros k. rewrite keys_set_in, I, map_app, in_app_iff. cbn [map In].
    intuition.
Qed.




(** X4: whatever the reply and whatever the tools do, what [tool_call]
    returns begins with [Observation:]. *)
Theorem every_observation_has_the_prefix
    (self : AgentPro JSON) (response : string) :
  startswith "Observation:" (tool_call json_loads self response) = true.
Proof.
  unfold tool_call.
  destruct (parse_action_string json_loads response) as [a input].
  unfold tool_call_body, tool_not_found.
  destruct a as [a|]; [|reflexivity].
  destruct (truthy a); [|reflexivity].
  destruct (Dict.get (tools self) (lower (strip a))) as [tool|]; [|reflexivity].
  destruct (run tool input); reflexivity.
Qed.

End RegistryFacts.

(** ** More on the parser *)

Section ScanFacts.

Context {JSON : Type}.
Variable json_loads : string -> option JSON.

Lemma scan_app (before rest : list string) :
  scan_lines (before ++ rest) = fold_left parse_line rest (scan_lines before).
Proof. unfold scan_lines. apply fold_left_app. Qed.

Lemma observation_line_is_no_action_line (line : string) :
  startswith "Observation:" line = true ->
  startswith "Action:" line = false /\ startswith "Action Input:" line = false.
Proof.
  unfold startswith. intros H. apply prefix_iff in H as [t ->]. split; reflexivity.
Qed.

(** X5: the action that the parser returns comes from the last line that
    begins with [Action:]: earlier [Action:] lines are overwritten, and
    lines after it do not change it. *)
Theorem last_action_line_wins
    (text : string) (before : list string) (line : string) (rest : list string) :
  split nl text = (before ++ line :: rest)%list ->
  startswith "Action:" line = true ->
  (forall l, In l rest -> startswith "Action:" l = false) ->
  fst (parse_action_string json_loads text)
  = Some (strip (replace "Action:" "" line)).
Proof.
  intros S A R. unfold parse_action_string; cbn [fst].
  rewrite S, scan_app. cbn [fold_left].
  rewrite scan_keeps_action by exact R.
  unfold parse_line. now rewrite A.
Qed.

(** X6: a line that begins with [Observation:] ends the collection: it
    is not collected itself, and as long as no new [Action Input:] line
    follows, nothing after it is collected either, so the input is what
    was collected before that line. *)
Theorem observation_line_ends_the_input
    (text : string) (before : list string) (line : string) (rest : list string) :
  split nl text = (before ++ line :: rest)%list ->
  startswith "Observation:" line = true ->
  (forall l, In l rest -> startswith "Action Input:" l = false) ->
  action_input (scan_lines (split nl text)) = action_input (scan_lines before) /\
  snd (parse_action_string json_loads text)
  = decode_input json_loads (join nl (action_input (scan_lines before))).
Proof.
  intros S O R.
  assert (action_input (scan_lines (split nl text))
          = action_input (scan_lines before)) as E.
  { rewrite S, scan_app. cbn [fold_left].
    destruct (observation_line_is_no_action_line line O) as [A I].
    assert (parse_line (scan_lines before) line =
            {| action := action (scan_lines before);
               action_input := action_input (scan_lines before);
               is_action_input := false |}) as ->
        by (unfold parse_line; now rewrite A, I, O).
    now rewrite scan_collects_nothing. }
  split; [exact E|].
  unfold parse_action_string; cbn [snd]. now rewrite E.
Qed.

Lemma clean_strip (s : string) : strip s <> "" -> clean (strip s).
Proof. intros N. destruct (strip_sides s). now repeat split. Qed.

Lemma truthy_true (s : string) : truthy s = true -> s <> "".
Proof. unfold truthy. now destruct (eqb_spec s ""). Qed.

Lemma parse_line_keeps_clean (st : ParserState) (line : string) :
  Forall clean (action_input st) ->
  Forall clean (action_input (parse_line st line)).
Proof.
  intros H. unfold parse_line.
  assert (forall x, truthy (strip x) = true ->
                    Forall clean (action_input st ++ [strip x])) as Add.
  { intros x T. apply Forall_app. split; [exact H|].
    constructor; [|constructor]. now apply clean_strip, truthy_true. }
  destruct (startswith "Action:" line); [exact H|].
  destruct (startswith "Action Input:" line).
  { cbn [action_input].
    destruct (truthy (strip (replace "Action Input:" "" line))) eqn:T;
      [now apply Add | exact H]. }
  destruct (startswith "Observation:" line); [exact H|].
  destruct (is_action_input st && truthy (strip line)) eqn:B; [|exact H].
  apply andb_prop in B as [_ T]. now apply Add.
Qed.

Lemma scan_keeps_clean (lines : list string) (st : ParserState) :
  Forall clean (action_input st) ->
  Forall clean (action_input (fold_left parse_line lines st)).
Proof.
  revert st; induction lines as [|l lines IH]; intros st H; cbn [fold_left];
    [assumption|].
  now apply IH, parse_line_keeps_clean.
Qed.

Lemma join_clean (pieces : list string) :
  Forall clean pieces ->
  lstrip (join nl pieces) = join nl pieces /\
  rstrip (join nl pieces) = join nl pieces /\
  (pieces <> [] -> join nl pieces <> "").
Proof.
  unfold join. induction pieces as [|x l IH]; intros H; [now repeat split|].
  inversion H as [|? ? (N & L & R) Hl]; subst.
  destruct l as [|y l]; cbn [concat]; [now repeat split|].
  destruct (IH Hl) as (L' & R' & N').
  repeat split.
  - now apply lstrip_append.
  - rewrite <- append_assoc. apply rstrip_append; [|exact R'].
    apply N'. discriminate.
  - destruct x; [congruence | discriminate].
Qed.

(** X7: every entry of the parser's buffer is a non-empty string without
    leading or trailing whitespace (blank lines are never collected), and
    so is the joined input: an undecoded input that the parser returns is
    its own [strip]. *)
Theorem collected_input_is_trimmed (text : string) :
  Forall (fun x => x <> "" /\ strip x = x)
         (action_input (scan_lines (split nl text))) /\
  (forall a s, parse_action_string json_loads text = (a, Text s) -> strip s = s).
Proof.
  assert (Forall clean (action_input (scan_lines (split nl text)))) as C
      by (apply scan_keeps_clean; constructor).
  split.
  - eapply Forall_impl; [|exact C]. intros x (N & L & R).
    split; [exact N|]. unfold strip. now rewrite L, R.
  - intros a s. unfold parse_action_string, decode_input.
    destruct (json_loads _); intros [= _ <-].
    destruct (join_clean _ C) as (L & R & _). unfold strip. now rewrite L, R.
Qed.

End ScanFacts.

(** ** Parser and dispatcher together *)

Section DispatchFacts.

Context {JSON : Type}.
Variable json_loads : string -> option JSON.



End DispatchFacts.

(** ** More on the loop *)

Section RunFacts.

Context {JSON : Type}.
Variable json_loads : string -> option JSON.


(** The loop, one step unfolded, in the two cases that go on. *)
Lemma loop_step (n : nat) (self : AgentPro JSON) (text : string) :
  client self (messages self) = Ok text ->
  contains "Final Answer" (strip text) = false ->
  let reply := strip text in
  let heard := append_message self assistant reply in
  loop json_loads (S n) self =
  if contains "Action" reply && contains "Action Input" reply then
    after [ModelCall (Ok text); ToolCall reply (tool_call json_loads heard reply)]
          (loop json_loads n
             (append_message heard assistant (tool_call json_loads heard reply)))
  else after [ModelCall (Ok text)] (loop json_loads n heard).
Proof. intros C F. cbn [loop]. now rewrite C, F. Qed.

Lemma loop_keeps_configuration (n : nat) (self : AgentPro JSON) :
  client (final (loop json_loads n self)) = client self /\
  tools (final (loop json_loads n self)) = tools self /\
  react_prompt (final (loop json_loads n self)) = react_prompt self.
Proof.
  revert self; induction n as [|n IH]; intros self; [now repeat split|].
  destruct (client self (messages self)) as [text|e] eqn:C;
    [|cbn [loop]; rewrite C; now repeat split].
  destruct (contains "Final Answer" (strip text)) eqn:F.
  - rewrite (loop_final_answer json_loads self n text C F). now repeat split.
  - rewrite (loop_step n self text C F). cbv zeta.
    destruct (contains "Action" (strip text) && contains "Action Input" (strip text));
      unfold after; cbn [final];
      match goal with |- context [loop _ n ?a] =>
        destruct (IH a) as (E1 & E2 & E3) end;
      rewrite E1, E2, E3; now repeat split.
Qed.

Lemma call_keeps_configuration (self : AgentPro JSON) (prompt : string) :
  client (final (call json_loads self prompt)) = client self /\
  tools (final (call json_loads self prompt)) = tools self /\
  react_prompt (final (call json_loads self prompt)) = react_prompt self.
Proof.
  unfold call.
  exact (loop_keeps_configuration max_steps (append_message self user prompt)).
Qed.

Lemma fold_keeps_configuration {A : Type} (step : AgentPro JSON -> A -> AgentPro JSON) :
  (forall a x, client (step a x) = client a /\ tools (step a x) = tools a /\
               react_prompt (step a x) = react_prompt a) ->
  forall (l : list A) (a : AgentPro JSON),
    client (fold_left step l a) = client a /\
    tools (fold_left step l a) = tools a /\
    react_prompt (fold_left step l a) = react_prompt a.
Proof.
  intros H l; induction l as [|x l IH]; intros a; cbn [fold_left];
    [now repeat split|].
  destruct (IH (step a x)) as (E1 & E2 & E3). destruct (H a x) as (K1 & K2 & K3).
  rewrite E1, E2, E3, K1, K2, K3. now repeat split.
Qed.

(** X9: a call, and so any sequence of calls, changes nothing but the
    history: the client, the registry and the instruction prompt of the
    agent stay those that [__init__] set. *)
Theorem calls_keep_the_configuration
    (self : AgentPro JSON) (prompts : list string) :
  client (session json_loads self prompts) = client self /\
  tools (session json_loads self prompts) = tools self /\
  react_prompt (session json_loads self prompts) = react_prompt self.
Proof.
  apply fold_keeps_configuration. intros a x. apply call_keeps_configuration.
Qed.




End RunFacts.

(** ** How a run ends, and what is dispatched *)

Section EndFacts.

Context {JSON : Type}.
Variable json_loads : string -> option JSON.





End EndFacts.

(** ** The tools *)

Section QuoteFacts.

(** All characters of [s] are among [chars]. *)
Lemma lstrip_chars_all (chars s : string) :
  lstrip_chars chars s = "" <-> rstrip_chars chars s = "".
Proof.
  induction s as [|c s IH]; cbn [lstrip_chars rstrip_chars]; [tauto|].
  destruct (has_char c chars) eqn:H.
  - rewrite IH. destruct (rstrip_chars chars s); [tauto|].
    split; discriminate.
  - destruct (rstrip_chars chars s); split; discriminate.
Qed.

Lemma lstrip_chars_prefix (chars a x : string) :
  lstrip_chars chars a = "" ->
  lstrip_chars chars (a ++ x) = lstrip_chars chars x.
Proof.
  induction a as [|c a IH]; cbn [append lstrip_chars]; [reflexivity|].
  destruct (has_char c chars); [exact IH | discriminate].
Qed.

Lemma rstrip_chars_suffix (chars x b : string) :
  rstrip_chars chars b = "" ->
  rstrip_chars chars (x ++ b) = rstrip_chars chars x.
Proof.
  intros B. induction x as [|c x IH]; cbn [append rstrip_chars]; [exact B|].
  now rewrite IH.
Qed.

Lemma lstrip_chars_append (chars s b : string) :
  lstrip_chars chars (s ++ b) = lstrip_chars chars s ++ b \/
  (lstrip_chars chars s = "" /\
   lstrip_chars chars (s ++ b) = lstrip_chars chars b).
Proof.
  induction s as [|c s IH]; cbn [append lstrip_chars]; [now right|].
  destruct (has_char c chars); [exact IH | now left].
Qed.

(** Quote characters around a string do not change what
    [strip] with the quote characters leaves of it. *)
Lemma strip_chars_wrapped (chars a s b : string) :
  lstrip_chars chars a = "" -> lstrip_chars chars b = "" ->
  strip_chars chars (a ++ s ++ b) = strip_chars chars s.
Proof.
  intros A B. unfold strip_chars. rewrite (lstrip_chars_prefix chars a _ A).
  destruct (lstrip_chars_append chars s b) as [E | [E1 E2]].
  - rewrite E. apply rstrip_chars_suffix. now apply lstrip_chars_all.
  - now rewrite E2, B, E1.
Qed.

Lemma lower_append (a b : string) : lower (a ++ b) = lower a ++ lower b.
Proof. induction a as [|c a IH]; cbn [append lower]; [|rewrite IH]; reflexivity. Qed.

Lemma lower_char_quote (c : ascii) :
  has_char (lower_char c) quotes = has_char c quotes.
Proof. destruct c as [[] [] [] [] [] [] [] []]; reflexivity. Qed.

Lemma lower_keeps_quotes (a : string) :
  lstrip_chars quotes a = "" -> lstrip_chars quotes (lower a) = "".
Proof.
  induction a as [|c a IH]; cbn [lower lstrip_chars]; [reflexivity|].
  rewrite lower_char_quote. destruct (has_char c quotes); [exact IH | discriminate].
Qed.

End QuoteFacts.

Section ToolFacts.

Context {JSON : Type}.
Variable py_str : JSON -> string.
Context {Number : Type}.
Variable number_truth : Number -> bool.
Variable describe : Ares.fault Number -> string.
Variable post : string -> string -> string -> Ares.Post Number.

(** X13: both tools take the prompt without the quote characters around
    it, and the mock tool also without regard to letter case: a prompt
    wrapped in single or double quotes gets the answer of the bare prompt
    from [AresInternetTool.run] and from [MockAresInternetTool.run], and a
    prompt and its lowercase form get the same answer from the mock. *)
Theorem tools_ignore_quotes_around_the_prompt (a s b : string) :
  lstrip_chars quotes a = "" -> lstrip_chars quotes b = "" ->
  (forall url key,
      Ares.run py_str number_truth describe post url key (Text (a ++ s ++ b))
      = Ares.run py_str number_truth describe post url key (Text s)) /\
  Ares.mock_run py_str (Text (a ++ s ++ b)) = Ares.mock_run py_str (Text s) /\
  Ares.mock_run py_str (Text (lower s)) = Ares.mock_run py_str (Text s).
Proof.
  intros A B. split; [|split].
  - intros url key. unfold Ares.run. cbn [Ares.as_str].
    now rewrite strip_chars_wrapped.
  - unfold Ares.mock_run. cbn [Ares.as_str].
    rewrite !lower_append, strip_chars_wrapped; auto using lower_keeps_quotes.
  - unfold Ares.mock_run. cbn [Ares.as_str]. now rewrite lower_idempotent.
Qed.

Lemma has_key_get (items : list (string * Ares.value Number)) (k : string) :
  existsb (fun kv => fst kv =? k) items = true ->
  exists x, Dict.get items k = Some x.
Proof.
  induction items as [|[k0 v0] items IH]; cbn [existsb Dict.get fst];
    [discriminate|].
  destruct (k0 =? k); [eauto | exact IH].
Qed.

Lemma get_has_key (items : list (string * Ares.value Number)) (k : string)
    (x : Ares.value Number) :
  Dict.get items k = Some x -> existsb (fun kv => fst kv =? k) items = true.
Proof.
  induction items as [|[k0 v0] items IH]; cbn [existsb Dict.get fst];
    [discriminate|].
  destruct (k0 =? k); [reflexivity | exact IH].
Qed.

(** What reading a decoded body gives when it does not raise. *)
Lemma read_result_cases (res : Ares.value Number) (out : string) :
  Ares.read_result number_truth describe res = Ok out ->
  startswith "Error:" out = true \/ out = Ares.no_information \/
  exists items ditems,
    res = Ares.VDict items /\
    Dict.get items "data" = Some (Ares.VDict ditems) /\
    Dict.get ditems "response_text" = Some (Ares.VStr out) /\
    strip out <> "".
Proof.
  unfold Ares.read_result.
  destruct (Ares.py_in describe "data" res) as [has_data|e] eqn:D;
    cbn [Ares.bind]; [|discriminate].
  destruct has_data.
  - destruct (Ares.subscript describe res "data") as [data|e] eqn:S;
      cbn [Ares.bind]; [|discriminate].
    destruct (Ares.py_in describe "response_text" data) as [expected|e] eqn:R;
      cbn [Ares.bind]; [|discriminate].
    destruct expected.
    + destruct (Ares.subscript describe data "response_text") as [rt|e] eqn:S2;
        cbn [Ares.bind]; [|discriminate].
      destruct res as [| | | |l|items]; try discriminate S.
      cbn [Ares.subscript] in S.
      destruct (Dict.get items "data") as [d|] eqn:G; [|discriminate S].
      injection S as ->.
      destruct data as [| | | |l|ditems]; try discriminate S2.
      cbn [Ares.subscript] in S2.
      destruct (Dict.get ditems "response_text") as [r|] eqn:G2; [|discriminate S2].
      injection S2 as ->.
      assert (forall other,
                 (if Ares.truth number_truth other
                  then Ares.raise describe (Ares.NoAttribute other "strip")
                  else Ok Ares.no_information) = Ok out ->
                 out = Ares.no_information) as Other.
      { intros other. destruct (Ares.truth number_truth other);
          [discriminate | now intros [= <-]]. }
      destruct rt as [|b|x|s|l|its]; cbv beta iota;
        try (match goal with
             | |- context [Ares.truth number_truth ?v] =>
                 intros E; right; left; exact (Other v E)
             end).
      destruct (negb (truthy s) || (strip s =? "")) eqn:Bk;
        intros [= <-]; [now (right; left)|].
      right; right. exists items, ditems. repeat split; auto.
      apply orb_false_elim in Bk as [_ Bk]. now apply eqb_neq.
    + destruct (Ares.keys_of describe data); cbn [Ares.bind]; [|discriminate].
      intros [= <-]. now left.
  - destruct (Ares.keys_of describe res); cbn [Ares.bind]; [|discriminate].
    intros [= <-]. now left.
Qed.

(** X14: [AresInternetTool.run] returns a string whatever the request
    does.  The string is the [response_text] of the answer exactly when the
    request went through with a status outside 400..599 and a body that
    decodes to an object whose ["data"] is an object whose
    ["response_text"] is a string that is not blank; that string comes
    back as it is.  In every other case the string is the "No information
    found" message or begins with [Error:]. *)
Theorem ares_run_reports_every_failure
    (url key : string) (prompt : ActionInput JSON) :
  let query := strip_chars quotes (Ares.as_str py_str prompt) in
  let out := Ares.run py_str number_truth describe post url key prompt in
  (forall response items ditems s,
      post url key query = Ares.Responded response ->
      Nat.leb 400 (Ares.status_code response)
        && Nat.ltb (Ares.status_code response) 600 = false ->
      Ares.json response = Ok (Ares.VDict items) ->
      Dict.get items "data" = Some (Ares.VDict ditems) ->
      Dict.get ditems "response_text" = Some (Ares.VStr s) ->
      strip s <> "" ->
      out = s) /\
  (startswith "Error:" out = true \/ out = Ares.no_information \/
   exists response items ditems,
     post url key query = Ares.Responded response /\
     Nat.leb 400 (Ares.status_code response)
       && Nat.ltb (Ares.status_code response) 600 = false /\
     Ares.json response = Ok (Ares.VDict items) /\
     Dict.get items "data" = Some (Ares.VDict ditems) /\
     Dict.get ditems "response_text" = Some (Ares.VStr out) /\
     strip out <> "").
Proof.
  cbv zeta. unfold Ares.run. split.
  - intros response items ditems s P St J G G2 N.
    rewrite P, St. unfold Ares.read_response, Ares.read_result. rewrite J.
    cbn [Ares.py_in Ares.bind Ares.subscript].
    rewrite (get_has_key _ _ _ G), G. cbn [Ares.py_in Ares.bind Ares.subscript].
    rewrite (get_has_key _ _ _ G2), G2. cbn [Ares.bind].
    assert (s <> "") as N' by (intros ->; now apply N).
    unfold truthy. destruct (eqb_spec s ""); [congruence|].
    destruct (eqb_spec (strip s) ""); [congruence|]. reflexivity.
  - destruct (post url key (strip_chars quotes (Ares.as_str py_str prompt)))
      as [response|e|e] eqn:P; [|now left|now left].
    destruct (Nat.leb 400 (Ares.status_code response)
              && Nat.ltb (Ares.status_code response) 600) eqn:St; [now left|].
    unfold Ares.read_response.
    destruct (Ares.json response) as [res|e] eqn:J; [|now left].
    destruct (Ares.read_result number_truth describe res) as [out|e] eqn:R;
      [|now left].
    destruct (read_result_cases res out R)
      as [H | [H | (items & ditems & -> & G & G2 & N)]]; auto.
    right; right. exists response, items, ditems. repeat split; auto.
Qed.

End ToolFacts.

(** ** The further facts on concrete inputs *)

Section MoreConcrete.

Import Examples AresExamples.


Lemma last_action_line_witness :
  fst (parse_action_string loads_atom
         ("Action: first" ++ nl ++ "Action: second" ++ nl ++ "Action Input: x"))
  = Some "second".
Proof.
  refine (last_action_line_wins loads_atom
            ("Action: first" ++ nl ++ "Action: second" ++ nl ++ "Action Input: x")
            ["Action: first"] "Action: second" ["Action Input: x"]
            eq_refl eq_refl _).
  intros l [<-|[]]. reflexivity.
Defined.

Lemma observation_line_witness :
  snd (parse_action_string loads_atom
         ("Action Input: a" ++ nl ++ "Observation: b" ++ nl ++ "c"))
  = Text "a".
Proof.
  refine (proj2 (observation_line_ends_the_input loads_atom
                   ("Action Input: a" ++ nl ++ "Observation: b" ++ nl ++ "c")
                   ["Action Input: a"] "Observation: b" ["c"]
                   eq_refl eq_refl _)).
  intros l [<-|[]]. reflexivity.
Defined.

Lemma collected_input_witness :
  parse_action_string loads_atom
    ("Action Input:   a  " ++ nl ++ "   " ++ nl ++ "  b  ")
  = (None, Text ("a" ++ nl ++ "b")) /\
  strip ("a" ++ nl ++ "b") = "a" ++ nl ++ "b".
Proof.
  split; [reflexivity|].
  exact (proj2 (collected_input_is_trimmed loads_atom
                  ("Action Input:   a  " ++ nl ++ "   " ++ nl ++ "  b  "))
               None ("a" ++ nl ++ "b") eq_refl).
Defined.



Lemma quoted_prompt_witness :
  Ares.run py_str number_truth describe post url "key"
    (Text (String squote "" ++ "capital of France" ++ String dquote ""))
  = "Paris is the capital of France." /\
  Ares.mock_run py_str (Text (String dquote "" ++ "Paris" ++ String dquote ""))
  = Ares.mock_run py_str (Text "Paris").
Proof.
  destruct (tools_ignore_quotes_around_the_prompt py_str number_truth describe post
              (String squote "") "capital of France" (String dquote "")
              eq_refl eq_refl) as [R _].
  destruct (tools_ignore_quotes_around_the_prompt py_str number_truth describe post
              (String dquote "") "Paris" (String dquote "")
              eq_refl eq_refl) as (_ & M & _).
  split; [|exact M]. rewrite R. reflexivity.
Defined.

Lemma ares_answer_witness :
  Ares.run py_str number_truth describe post url "key" (Text "capital of France")
  = "Paris is the capital of France." /\
  Ares.run py_str number_truth describe post url "key" (Text "capital")
  = "Error: Unexpected error in Ares tool - object has no attribute 'keys'" /\
  Ares.run py_str number_truth describe post url "key" (Decoded JNull)
  = "Error: HTTP request failed - Read timed out.".
Proof.
  split; [|split; reflexivity].
  refine (proj1 (ares_run_reports_every_failure py_str number_truth describe post
                   url "key" (Text "capital of France"))
                _ _ _ "Paris is the capital of France."
                eq_refl eq_refl eq_refl eq_refl eq_refl _).
  discriminate.
Defined.

End MoreConcrete.
